(** * Stock Tank Filler: the controller of [Stock Tank.c] and its properties

    The program runs on an MSP430G2553.  It keeps a stock tank full by
    pulsing a latching solenoid through an H-bridge, woken every 21.8 s
    by the watchdog interval timer.  This development embeds the
    program's registers, its two interrupt handlers, [Solenoid_pulse]
    and the body of [main], and proves properties of the state machine
    and of the pulse driver. *)

From Stdlib Require Import ZArith List Bool Lia.
Import ListNotations.
Local Open Scope Z_scope.

(** ** Machine integers *)

(** A store to an 8-bit port register keeps the low byte. *)
Definition u8 (z : Z) : Z := z mod 2 ^ 8.

(** [unsigned int] is 16 bits wide on the MSP430. *)
Definition u16 (z : Z) : Z := z mod 2 ^ 16.

(** A C condition: any non-zero value is true. *)
Definition truthy (z : Z) : bool := negb (z =? 0).

(** The level of the pin selected by a one-bit mask. *)
Definition pin (mask reg : Z) : bool := Z.testbit reg (Z.log2 mask).

(** ** Constants of the source (lines 49-61) *)

Definition LED : Z := 0x08.           (* P2.3 *)
Definition Tank_Full : Z := 0x10.     (* P2.4 *)
Definition nSLEEP : Z := 0x02.        (* P2.1 *)
Definition Solenoid_on : Z := 0x10.   (* P1.4 SELECT1 *)
Definition Solenoid_off : Z := 0x20.  (* P1.5 SELECT2 *)

Definition flash_delay : Z := 0x32c8.
Definition decay_delay : Z := 0x07d0.
Definition check_interval : Z := 2.
Definition off : Z := 0.              (* bool off = false *)
Definition on : Z := 1.               (* bool on = true *)

(** The states of the controller, by the number [state] holds. *)
Definition Idle : Z := 0.
Definition Filling : Z := 1.
Definition CooldownHysteresis : Z := 2.
Definition FaultWaitingFull : Z := 3.

(** The tick thresholds the controller compares [clk_count] with. *)
Definition CheckIntervalTicks : Z := check_interval.
Definition MinOnTicks : Z := 1.
Definition MaxOnTicks : Z := u16 (Z.shiftl check_interval 5).
Definition CooldownTicks : Z := u16 (Z.shiftl check_interval 4).

(** ** Registers and globals *)

(** Timer_A control words.  The program writes only these values; their
    bit encodings belong to the device header and play no role here. *)
Inductive cctl : Type :=
| CCTL_0      (* TA0CCTL0 = 0: compare interrupt disabled *)
| CCIE.       (* CCTL0 = CCIE: compare interrupt enabled *)

Inductive tactl : Type :=
| TACTL_reset
| TASSEL_2_MC_1.   (* TASSEL_2 + MC_1: SMCLK, up mode *)

Record machine : Type := mkMachine {
  P1DIR : Z;
  P1OUT : Z;
  P2DIR : Z;
  P2OUT : Z;
  TA0CCTL0 : cctl;     (* also named CCTL0 *)
  TA0CCR0 : Z;         (* also named CCR0 *)
  TA0CTL : tactl;
  clk_count : Z;
  state : Z
}.

Definition set_P1DIR (v : Z) (m : machine) : machine :=
  mkMachine v (P1OUT m) (P2DIR m) (P2OUT m) (TA0CCTL0 m) (TA0CCR0 m)
            (TA0CTL m) (clk_count m) (state m).
Definition set_P1OUT (v : Z) (m : machine) : machine :=
  mkMachine (P1DIR m) v (P2DIR m) (P2OUT m) (TA0CCTL0 m) (TA0CCR0 m)
            (TA0CTL m) (clk_count m) (state m).
Definition set_P2DIR (v : Z) (m : machine) : machine :=
  mkMachine (P1DIR m) (P1OUT m) v (P2OUT m) (TA0CCTL0 m) (TA0CCR0 m)
            (TA0CTL m) (clk_count m) (state m).
Definition set_P2OUT (v : Z) (m : machine) : machine :=
  mkMachine (P1DIR m) (P1OUT m) (P2DIR m) v (TA0CCTL0 m) (TA0CCR0 m)
            (TA0CTL m) (clk_count m) (state m).
Definition set_TA0CCTL0 (v : cctl) (m : machine) : machine :=
  mkMachine (P1DIR m) (P1OUT m) (P2DIR m) (P2OUT m) v (TA0CCR0 m)
            (TA0CTL m) (clk_count m) (state m).
Definition set_TA0CCR0 (v : Z) (m : machine) : machine :=
  mkMachine (P1DIR m) (P1OUT m) (P2DIR m) (P2OUT m) (TA0CCTL0 m) v
            (TA0CTL m) (clk_count m) (state m).
Definition set_TA0CTL (v : tactl) (m : machine) : machine :=
  mkMachine (P1DIR m) (P1OUT m) (P2DIR m) (P2OUT m) (TA0CCTL0 m) (TA0CCR0 m)
            v (clk_count m) (state m).
Definition set_clk_count (v : Z) (m : machine) : machine :=
  mkMachine (P1DIR m) (P1OUT m) (P2DIR m) (P2OUT m) (TA0CCTL0 m) (TA0CCR0 m)
            (TA0CTL m) v (state m).
Definition set_state (v : Z) (m : machine) : machine :=
  mkMachine (P1DIR m) (P1OUT m) (P2DIR m) (P2OUT m) (TA0CCTL0 m) (TA0CCR0 m)
            (TA0CTL m) (clk_count m) v.

(** ** Commands: state passing with a trace of observable events *)

Inductive event : Type :=
| Call (dir : Z) (m : machine)  (* Solenoid_pulse(dir) is entered in [m] *)
| Port (m : machine)            (* a store to P1OUT or P2OUT has led to [m] *)
| LPM0 (m : machine)            (* the CPU sleeps in [m] until Timer_A fires *)
| LPM3 (m : machine).           (* the CPU sleeps in [m] until the WDT fires *)

Definition cmd : Type := machine -> machine * list event.

Definition skip : cmd := fun m => (m, []).

Definition seq (c1 c2 : cmd) : cmd :=
  fun m =>
    let (m1, t1) := c1 m in
    let (m2, t2) := c2 m1 in
    (m2, t1 ++ t2).

Notation "c1 ;; c2" := (seq c1 c2) (at level 61, right associativity).

(** An assignment to a global or to a timer register. *)
Definition assign (f : machine -> machine) : cmd := fun m => (f m, []).

(** A store to an output port: the new pin levels are observable. *)
Definition store (f : machine -> machine) : cmd :=
  fun m => (f m, [Port (f m)]).

Definition emit (e : machine -> event) : cmd := fun m => (m, [e m]).

(** ** Interrupt handlers (lines 135-148) *)

(** [watchdog_timer]: [clk_count++] on a 16-bit unsigned, then wake. *)
Definition watchdog_timer : cmd :=
  assign (fun m => set_clk_count (u16 (clk_count m + 1)) m).

(** [Timer_A]: disable the timer's interrupt, then wake. *)
Definition Timer_A : cmd := assign (set_TA0CCTL0 CCTL_0).

(** Low-power waits.  The timings of the program (a 15 ms pulse right
    after a wake-up of a 21.8 s interval timer) let Timer_A end every
    LPM0 wait and the watchdog interval timer end every LPM3 wait. *)
Definition lpm0 : cmd := emit LPM0 ;; Timer_A.
Definition lpm3 : cmd := emit LPM3 ;; watchdog_timer.

(** ** [Solenoid_pulse] (lines 150-180)

    [dir] is an old-style parameter, an [int]; the callers pass [off]
    and [on].  The masks of lines 168 and 178 are sums of two
    complements, computed in [int] (-50 and -12, no overflow); the store
    to the 8-bit port keeps their low byte. *)

Definition Solenoid_pulse (dir : Z) : cmd :=
  emit (Call dir) ;;
  (if truthy dir
   then store (fun m => set_P1OUT (u8 (Z.lor (P1OUT m) Solenoid_on)) m)
   else store (fun m => set_P1OUT (u8 (Z.lor (P1OUT m) Solenoid_off)) m)) ;;
  store (fun m => set_P2OUT (u8 (Z.lor (P2OUT m) (LED + nSLEEP))) m) ;;
  assign (set_TA0CCTL0 CCIE) ;;
  assign (set_TA0CCR0 flash_delay) ;;
  assign (set_TA0CTL TASSEL_2_MC_1) ;;
  lpm0 ;;
  store (fun m => set_P1OUT
           (u8 (Z.land (P1OUT m) (Z.lnot Solenoid_off + Z.lnot Solenoid_on))) m) ;;
  assign (set_TA0CCTL0 CCIE) ;;
  assign (set_TA0CCR0 decay_delay) ;;
  assign (set_TA0CTL TASSEL_2_MC_1) ;;
  lpm0 ;;
  store (fun m => set_P2OUT
           (u8 (Z.land (P2OUT m) (Z.lnot LED + Z.lnot nSLEEP))) m).

(** ** The controller: the [switch (state)] of [main] (lines 85-129)

    [p2in] is the value a read of the input port P2IN returns during
    this evaluation; every path reads the port at most once. *)
Definition evaluate (p2in : Z) : cmd :=
  fun m =>
    match state m with
    | 0 =>
        if clk_count m >? check_interval then
          (assign (set_clk_count 0) ;;
           if Z.land p2in Tank_Full =? 0
           then assign (set_state 1) ;; Solenoid_pulse on
           else skip) m
        else skip m
    | 1 =>
        if clk_count m >? 1 then
          if truthy p2in then
            (assign (set_clk_count 0) ;;
             assign (set_state 2) ;;
             Solenoid_pulse off) m
          else if clk_count m >=? u16 (Z.shiftl check_interval 5) then
            (assign (set_state 3) ;; Solenoid_pulse off) m
          else skip m
        else skip m
    | 2 =>
        if clk_count m >=? u16 (Z.shiftl check_interval 4) then
          (assign (set_clk_count 0) ;; assign (set_state 0)) m
        else skip m
    | 3 =>
        if truthy p2in then
          (assign (set_state 0) ;; assign (set_clk_count 0)) m
        else skip m
    | _ => skip m
    end.

(** ** [main] (lines 66-133)

    The clock and watchdog set-up of lines 68-74 touches no register of
    [machine].  The loop never ends: [loop] runs one iteration per
    sample of P2IN. *)
Definition port_init : cmd :=
  assign (set_P1DIR 0xFF) ;;
  store (set_P1OUT 0) ;;
  assign (set_P2DIR (u8 (Z.lnot Tank_Full))) ;;
  store (set_P2OUT LED).

Definition loop_body (p2in : Z) : cmd := evaluate p2in ;; lpm3.

Fixpoint loop (samples : list Z) : cmd :=
  match samples with
  | [] => skip
  | p2in :: rest => loop_body p2in ;; loop rest
  end.

Definition after_init (samples : list Z) : cmd :=
  Solenoid_pulse off ;; loop samples.

Definition main (samples : list Z) : cmd :=
  port_init ;; after_init samples.

(** The machine as the C start-up code leaves it: the initialised
    globals hold their values, the registers hold whatever [m] has. *)
Definition startup (m : machine) : machine :=
  set_state 0 (set_clk_count 0 m).

(** ** Reading traces *)

Definition machine_of (e : event) : machine :=
  match e with
  | Call _ m | Port m | LPM0 m | LPM3 m => m
  end.

(** The directions of the calls of [Solenoid_pulse], in order. *)
Fixpoint pulses (t : list event) : list Z :=
  match t with
  | [] => []
  | Call dir _ :: t' => dir :: pulses t'
  | _ :: t' => pulses t'
  end.

(** The machine at each timed wait of the pulse driver, in order. *)
Fixpoint phases (t : list event) : list machine :=
  match t with
  | [] => []
  | LPM0 m :: t' => m :: phases t'
  | _ :: t' => phases t'
  end.

(** The machine at each wait of the main loop, that is, after each
    evaluation of the controller, in order. *)
Fixpoint sleeps (t : list event) : list machine :=
  match t with
  | [] => []
  | LPM3 m :: t' => m :: sleeps t'
  | _ :: t' => sleeps t'
  end.

(** The float switch, as line 90 reads it. *)
Definition float_switch (p2in : Z) : bool :=
  negb (Z.land p2in Tank_Full =? 0).

Definition zero_machine : machine :=
  mkMachine 0 0 0 0 CCTL_0 0 TACTL_reset 0 0.

(** ** Predicates on machines, phases and events *)

(** The bridge input that [dir] drives, and the opposite one. *)
Definition drive_mask (dir : Z) : Z :=
  if truthy dir then Solenoid_on else Solenoid_off.
Definition other_mask (dir : Z) : Z :=
  if truthy dir then Solenoid_off else Solenoid_on.

(** The drive phase of a pulse entered in [m]: the input for [dir] is
    high and the opposite one as it was, the bridge is enabled and the
    LED lit, and Timer_A is armed for [flash_delay]. *)
Definition driving (dir : Z) (m d : machine) : Prop :=
  pin (drive_mask dir) (P1OUT d) = true /\
  pin (other_mask dir) (P1OUT d) = pin (other_mask dir) (P1OUT m) /\
  pin LED (P2OUT d) = true /\ pin nSLEEP (P2OUT d) = true /\
  TA0CCTL0 d = CCIE /\ TA0CTL d = TASSEL_2_MC_1 /\ TA0CCR0 d = flash_delay.

(** The decay phase: both inputs low, bridge still enabled, Timer_A
    armed for [decay_delay]. *)
Definition decaying (d : machine) : Prop :=
  pin Solenoid_on (P1OUT d) = false /\ pin Solenoid_off (P1OUT d) = false /\
  pin LED (P2OUT d) = true /\ pin nSLEEP (P2OUT d) = true /\
  TA0CCTL0 d = CCIE /\ TA0CTL d = TASSEL_2_MC_1 /\ TA0CCR0 d = decay_delay.

(** Both bridge inputs low. *)
Definition released (m : machine) : Prop :=
  pin Solenoid_on (P1OUT m) = false /\ pin Solenoid_off (P1OUT m) = false.

(** The state a pulse returns in: inputs low, bridge asleep, LED off. *)
Definition disabled (m : machine) : Prop :=
  released m /\ pin LED (P2OUT m) = false /\ pin nSLEEP (P2OUT m) = false.

(** The two bridge inputs are not both high. *)
Definition exclusive (m : machine) : Prop :=
  pin Solenoid_on (P1OUT m) && pin Solenoid_off (P1OUT m) = false.

(** At every event the inputs are exclusive; a pulse is entered, and the
    main loop sleeps, with both inputs low. *)
Definition event_safe (e : event) : Prop :=
  exclusive (machine_of e) /\
  match e with
  | Call _ m | LPM3 m => released m
  | Port _ | LPM0 _ => True
  end.

(** Bit 0 of both output ports is low; an event that is a call of the
    pulse driver finds it so. *)
Definition bit0_low (m : machine) : Prop :=
  Z.testbit (P1OUT m) 0 = false /\ Z.testbit (P2OUT m) 0 = false.

Definition call_bit0_low (e : event) : Prop :=
  match e with
  | Call _ m => bit0_low m
  | Port _ | LPM0 _ | LPM3 _ => True
  end.

(** A value that fits an 8-bit port register. *)
Definition byte (z : Z) : Prop := 0 <= z < 2 ^ 8.

(** The output ports as [main] has them at a call of the pulse driver:
    bit 0 low, both registers within a byte. *)
Definition call_ready (m : machine) : Prop :=
  bit0_low m /\ byte (P1OUT m) /\ byte (P2OUT m).

(** The frame of a pulse entered in [m] and left in [m']: every bit of
    P1OUT but the two solenoid bits, and every bit of P2OUT but the LED
    and nSLEEP bits, is in [m'] as it was in [m]. *)
Definition pulse_frame (m m' : machine) : Prop :=
  forall i,
    (i <> Z.log2 Solenoid_on -> i <> Z.log2 Solenoid_off ->
     Z.testbit (P1OUT m') i = Z.testbit (P1OUT m) i) /\
    (i <> Z.log2 LED -> i <> Z.log2 nSLEEP ->
     Z.testbit (P2OUT m') i = Z.testbit (P2OUT m) i).

(** An event that is a call of the pulse driver returns within the
    frame. *)
Definition call_frame (e : event) : Prop :=
  match e with
  | Call dir m => pulse_frame m (fst (Solenoid_pulse dir m))
  | Port _ | LPM0 _ | LPM3 _ => True
  end.

(** The command [c], run in [m], keeps the invariant [Inv] of machines
    and emits only events that satisfy [Ok]. *)
Definition keeps (Inv : machine -> Prop) (Ok : event -> Prop)
    (c : cmd) (m : machine) : Prop :=
  Forall Ok (snd (c m)) /\ Inv (fst (c m)).

(** Port outputs and port directions agree. *)
Definition same_registers (m m1 : machine) : Prop :=
  P1OUT m1 = P1OUT m /\ P2OUT m1 = P2OUT m /\
  P1DIR m1 = P1DIR m /\ P2DIR m1 = P2DIR m.

(** The transitions of the controller's table that clear the tick count,
    between the machine [m] before an evaluation and [m'] after it. *)
Definition listed_reset (m m' : machine) : Prop :=
  (state m = Idle /\ clk_count m > CheckIntervalTicks /\
   (state m' = Idle \/ state m' = Filling)) \/
  (state m = Filling /\ state m' = CooldownHysteresis) \/
  (state m = CooldownHysteresis /\ state m' = Idle) \/
  (state m = FaultWaitingFull /\ state m' = Idle).

(** ** Predicates on runs of [main] *)

(** All hardware registers agree; the two globals may differ. *)
Definition same_hardware (m m1 : machine) : Prop :=
  P1DIR m1 = P1DIR m /\ P1OUT m1 = P1OUT m /\
  P2DIR m1 = P2DIR m /\ P2OUT m1 = P2OUT m /\
  TA0CCTL0 m1 = TA0CCTL0 m /\ TA0CCR0 m1 = TA0CCR0 m /\
  TA0CTL m1 = TA0CTL m.

(** The hardware as the main loop sleeps: every output low (bridge
    asleep, LED off), Timer_A's interrupt disabled, every pin but
    Tank_Full an output. *)
Definition quiet (m : machine) : Prop :=
  P1OUT m = 0 /\ P2OUT m = 0 /\ TA0CCTL0 m = CCTL_0 /\
  P1DIR m = 0xFF /\ P2DIR m = 0xEF.

(** A timed wait that Timer_A will end: its interrupt is enabled, the
    timer runs towards one of the two delays, the bridge is enabled. *)
Definition armed (m : machine) : Prop :=
  TA0CCTL0 m = CCIE /\ TA0CTL m = TASSEL_2_MC_1 /\
  (TA0CCR0 m = flash_delay \/ TA0CCR0 m = decay_delay) /\
  pin nSLEEP (P2OUT m) = true.

(** Every timed wait among the events is armed. *)
Definition wait_armed (e : event) : Prop :=
  match e with
  | LPM0 m => armed m
  | Call _ _ | Port _ | LPM3 _ => True
  end.

(** The range of the tick count, by state, when an evaluation starts
    ([wake_bound]) and when the main loop goes to sleep after it
    ([sleep_bound]). *)
Definition wake_bound (m : machine) : Prop :=
  0 <= clk_count m /\
  ((state m = Idle /\ clk_count m <= CheckIntervalTicks + 1) \/
   (state m = Filling /\ clk_count m <= MaxOnTicks) \/
   (state m = CooldownHysteresis /\ clk_count m <= CooldownTicks) \/
   (state m = FaultWaitingFull /\ clk_count m < 2 ^ 16)).

Definition sleep_bound (m : machine) : Prop :=
  0 <= clk_count m /\
  ((state m = Idle /\ clk_count m <= CheckIntervalTicks) \/
   (state m = Filling /\ clk_count m < MaxOnTicks) \/
   (state m = CooldownHysteresis /\ clk_count m < CooldownTicks) \/
   (state m = FaultWaitingFull /\ clk_count m < 2 ^ 16)).

(** [n] directions in turn, starting with [dir]. *)
Fixpoint alternate (dir : Z) (n : nat) : list Z :=
  match n with
  | O => []
  | S k => dir :: alternate (if truthy dir then off else on) k
  end.

(** The number of coming evaluations that cannot issue a pulse,
    whatever the input port reads: in Idle until the count exceeds
    CheckIntervalTicks, in Filling until it exceeds MinOnTicks, in
    CooldownHysteresis until it reaches CooldownTicks and then through
    the Idle that follows. *)
Definition dwell (m : machine) : Z :=
  if state m =? Idle then CheckIntervalTicks + 1 - clk_count m
  else if state m =? Filling then MinOnTicks + 1 - clk_count m
  else if state m =? CooldownHysteresis
       then CooldownTicks + CheckIntervalTicks + 1 - clk_count m
  else 0.

(** * Properties *)

(** ** Bits of the port registers *)

Lemma testbit_u8 (z i : Z) :
  0 <= i < 8 -> Z.testbit (u8 z) i = Z.testbit z i.
Proof. intros Hi. unfold u8. apply Z.mod_pow2_bits_low. lia. Qed.

Lemma or_mask_bit (x k i : Z) :
  0 <= i < 8 -> Z.testbit (u8 (Z.lor x k)) i = Z.testbit x i || Z.testbit k i.
Proof. intros Hi. rewrite testbit_u8 by assumption. apply Z.lor_spec. Qed.

Lemma and_mask_bit (x k i : Z) :
  0 <= i < 8 -> Z.testbit (u8 (Z.land x k)) i = Z.testbit x i && Z.testbit k i.
Proof. intros Hi. rewrite testbit_u8 by assumption. apply Z.land_spec. Qed.

Lemma pin_Solenoid_on (r : Z) : pin Solenoid_on r = Z.testbit r 4.
Proof. reflexivity. Qed.
Lemma pin_Solenoid_off (r : Z) : pin Solenoid_off r = Z.testbit r 5.
Proof. reflexivity. Qed.
Lemma pin_LED (r : Z) : pin LED r = Z.testbit r 3.
Proof. reflexivity. Qed.
Lemma pin_nSLEEP (r : Z) : pin nSLEEP r = Z.testbit r 1.
Proof. reflexivity. Qed.

(** Evaluate the bits of the masks of the source. *)
Ltac mask_bits :=
  repeat match goal with
  | |- context [Z.testbit ?k ?i] =>
      lazymatch k with
      | Solenoid_on => idtac
      | Solenoid_off => idtac
      | LED + nSLEEP => idtac
      | Z.lnot _ + Z.lnot _ => idtac
      end;
      let v := eval vm_compute in (Z.testbit k i) in
      change (Z.testbit k i) with v
  end.

Ltac pins :=
  rewrite ?pin_Solenoid_on, ?pin_Solenoid_off, ?pin_LED, ?pin_nSLEEP;
  repeat first [rewrite or_mask_bit by lia | rewrite and_mask_bit by lia];
  mask_bits;
  rewrite ?orb_true_r, ?orb_false_r, ?andb_true_r, ?andb_false_r.

(** Run straight-line commands on a symbolic machine. *)
Ltac run :=
  cbv [Solenoid_pulse port_init lpm0 lpm3 Timer_A watchdog_timer
       seq emit store assign skip];
  cbn [fst snd app phases pulses machine_of
       P1DIR P1OUT P2DIR P2OUT TA0CCTL0 TA0CCR0 TA0CTL clk_count state
       set_P1DIR set_P1OUT set_P2DIR set_P2OUT set_TA0CCTL0 set_TA0CCR0
       set_TA0CTL set_clk_count set_state].

(** ** Sequencing *)

Lemma seq_run (c1 c2 : cmd) (m : machine) :
  (c1 ;; c2) m
  = (fst (c2 (fst (c1 m))), snd (c1 m) ++ snd (c2 (fst (c1 m)))).
Proof.
  unfold seq. destruct (c1 m) as [m1 t1]. cbn [fst snd].
  destruct (c2 m1) as [m2 t2]. reflexivity.
Qed.

Lemma assign_seq (f : machine -> machine) (c : cmd) (m : machine) :
  (assign f ;; c) m = c (f m).
Proof. rewrite seq_run. cbn [assign fst snd app]. now destruct (c (f m)). Qed.

Lemma phases_app (t1 t2 : list event) :
  phases (t1 ++ t2) = phases t1 ++ phases t2.
Proof.
  induction t1 as [|e t1 IH]; [reflexivity|].
  destruct e; cbn [app phases]; rewrite IH; reflexivity.
Qed.

Lemma pulses_app (t1 t2 : list event) :
  pulses (t1 ++ t2) = pulses t1 ++ pulses t2.
Proof.
  induction t1 as [|e t1 IH]; [reflexivity|].
  destruct e; cbn [app pulses]; rewrite IH; reflexivity.
Qed.

(** ** The pulse driver *)

Lemma pulses_Solenoid_pulse (dir : Z) (m : machine) :
  pulses (snd (Solenoid_pulse dir m)) = [dir].
Proof. run. destruct (truthy dir); reflexivity. Qed.

Lemma Solenoid_pulse_globals (dir : Z) (m : machine) :
  clk_count (fst (Solenoid_pulse dir m)) = clk_count m /\
  state (fst (Solenoid_pulse dir m)) = state m.
Proof. run. destruct (truthy dir); split; reflexivity. Qed.

Lemma Solenoid_pulse_phases (dir : Z) (m : machine) :
  exists d1 d2,
    phases (snd (Solenoid_pulse dir m)) = [d1; d2] /\
    driving dir m d1 /\ decaying d2 /\ disabled (fst (Solenoid_pulse dir m)).
Proof.
  unfold driving, decaying, disabled, released, drive_mask, other_mask.
  run. destruct (truthy dir); run;
    (eexists; eexists; split; [reflexivity|]); run;
    repeat split; pins; reflexivity.
Qed.

Lemma disabled_released (m : machine) : disabled m -> released m.
Proof. intros [H _]. exact H. Qed.

(** C5: every call of [Solenoid_pulse], in either direction, goes
    through exactly two timed phases in order: the drive phase for the
    given direction, with the bridge enabled and the LED lit, timed by
    [flash_delay], then the fast-decay phase with both drive bits
    released, timed by [decay_delay]; it returns with nSLEEP and the LED
    de-asserted.  A second call right after the first goes through the
    same two phases again, driving only the input of its own direction. *)
Theorem Solenoid_pulse_two_phases :
  (forall dir m,
      exists d1 d2,
        phases (snd (Solenoid_pulse dir m)) = [d1; d2] /\
        driving dir m d1 /\ decaying d2 /\
        disabled (fst (Solenoid_pulse dir m))) /\
  (forall dir1 dir2 m,
      exists d1 d2 d3 d4,
        phases (snd ((Solenoid_pulse dir1 ;; Solenoid_pulse dir2) m))
          = [d1; d2; d3; d4] /\
        driving dir1 m d1 /\ decaying d2 /\
        driving dir2 (fst (Solenoid_pulse dir1 m)) d3 /\
        pin (other_mask dir2) (P1OUT d3) = false /\
        decaying d4 /\
        disabled (fst ((Solenoid_pulse dir1 ;; Solenoid_pulse dir2) m))) /\
  drive_mask on = Solenoid_on /\ drive_mask off = Solenoid_off.
Proof.
  split; [exact Solenoid_pulse_phases|].
  split; [|split; reflexivity].
  intros dir1 dir2 m.
  destruct (Solenoid_pulse_phases dir1 m) as (d1 & d2 & Hp1 & Hd1 & Hd2 & Hx1).
  destruct (Solenoid_pulse_phases dir2 (fst (Solenoid_pulse dir1 m)))
    as (d3 & d4 & Hp2 & Hd3 & Hd4 & Hx2).
  exists d1, d2, d3, d4.
  rewrite seq_run. cbn [fst snd]. rewrite phases_app, Hp1, Hp2.
  split; [reflexivity|].
  do 3 (split; [assumption|]).
  split; [|split; assumption].
  destruct Hd3 as (_ & Hother & _). rewrite Hother.
  destruct Hx1 as [[Hon Hoff] _].
  unfold other_mask. destruct (truthy dir2); assumption.
Qed.

(** The bits a pulse leaves alone, for an entry machine of any port
    values: all of P1OUT but bits 0, 4 and 5, all of P2OUT but bits 0, 1
    and 3, and the direction registers. *)
Lemma Solenoid_pulse_frame (dir : Z) (m : machine) (i : Z) :
  0 <= i < 8 ->
  (i <> 0 -> i <> 4 -> i <> 5 ->
   Z.testbit (P1OUT (fst (Solenoid_pulse dir m))) i = Z.testbit (P1OUT m) i) /\
  (i <> 0 -> i <> 1 -> i <> 3 ->
   Z.testbit (P2OUT (fst (Solenoid_pulse dir m))) i = Z.testbit (P2OUT m) i) /\
  P1DIR (fst (Solenoid_pulse dir m)) = P1DIR m /\
  P2DIR (fst (Solenoid_pulse dir m)) = P2DIR m.
Proof.
  intros Hi.
  assert (Hcases : i = 0 \/ i = 1 \/ i = 2 \/ i = 3 \/ i = 4 \/ i = 5 \/
                   i = 6 \/ i = 7) by lia.
  run. destruct (truthy dir); run; repeat split; try reflexivity; intros;
    repeat (destruct Hcases as [-> | Hcases]); try subst i; try lia;
    pins; reflexivity.
Qed.

(** Bit 0 of both ports is cleared by every pulse. *)
Lemma Solenoid_pulse_bit0 (dir : Z) (m : machine) :
  bit0_low (fst (Solenoid_pulse dir m)).
Proof.
  unfold bit0_low. run. destruct (truthy dir); run; split; pins; reflexivity.
Qed.

(** The masks [~Solenoid_off + ~Solenoid_on] and [~LED + ~nSLEEP] are
    sums, 0xCE and 0xF4 in the low byte, and have bit 0 clear: entered
    with P1.0 and P2.0 high, a state that no run of [main] reaches, a
    pulse would return with both low. *)
Theorem Solenoid_pulse_clears_bit0 :
  let m := set_P2OUT 0x01 (set_P1OUT 0x01 zero_machine) in
  u8 (Z.lnot Solenoid_off + Z.lnot Solenoid_on) = 0xCE /\
  u8 (Z.lnot LED + Z.lnot nSLEEP) = 0xF4 /\
  Z.testbit (P1OUT m) 0 = true /\
  Z.testbit (P1OUT (fst (Solenoid_pulse on m))) 0 = false /\
  Z.testbit (P1OUT (fst (Solenoid_pulse off m))) 0 = false /\
  Z.testbit (P2OUT m) 0 = true /\
  Z.testbit (P2OUT (fst (Solenoid_pulse on m))) 0 = false /\
  Z.testbit (P2OUT (fst (Solenoid_pulse off m))) 0 = false.
Proof. vm_compute. repeat split. Qed.

(** Line 49 names 0x01 (P2.0) as the LED bit for tests: the mask of
    line 178 would then have the LED and nSLEEP bits set, and clear
    neither. *)
Lemma test_LED_mask :
  u8 (Z.lnot 0x01 + Z.lnot nSLEEP) = 0xFB /\
  Z.testbit (Z.lnot 0x01 + Z.lnot nSLEEP) 0 = true /\
  Z.testbit (Z.lnot 0x01 + Z.lnot nSLEEP) 1 = true.
Proof. vm_compute. repeat split. Qed.

(** ** The controller, branch by branch *)

Lemma evaluate_Idle (p2in : Z) (m : machine) :
  state m = Idle ->
  evaluate p2in m =
    if clk_count m >? check_interval then
      if Z.land p2in Tank_Full =? 0
      then Solenoid_pulse on (set_state 1 (set_clk_count 0 m))
      else (set_clk_count 0 m, [])
    else (m, []).
Proof.
  unfold Idle, evaluate. intros ->.
  destruct (clk_count m >? check_interval); [|reflexivity].
  rewrite assign_seq. destruct (Z.land p2in Tank_Full =? 0); [|reflexivity].
  now rewrite assign_seq.
Qed.

Lemma evaluate_Filling (p2in : Z) (m : machine) :
  state m = Filling ->
  evaluate p2in m =
    if clk_count m >? 1 then
      if truthy p2in
      then Solenoid_pulse off (set_state 2 (set_clk_count 0 m))
      else if clk_count m >=? u16 (Z.shiftl check_interval 5)
           then Solenoid_pulse off (set_state 3 m)
           else (m, [])
    else (m, []).
Proof.
  unfold Filling, evaluate. intros ->.
  destruct (clk_count m >? 1); [|reflexivity].
  destruct (truthy p2in); [now rewrite !assign_seq|].
  destruct (clk_count m >=? u16 (Z.shiftl check_interval 5)); [|reflexivity].
  now rewrite assign_seq.
Qed.

Lemma evaluate_Cooldown (p2in : Z) (m : machine) :
  state m = CooldownHysteresis ->
  evaluate p2in m =
    if clk_count m >=? u16 (Z.shiftl check_interval 4)
    then (set_state 0 (set_clk_count 0 m), [])
    else (m, []).
Proof.
  unfold CooldownHysteresis, evaluate. intros ->.
  destruct (clk_count m >=? u16 (Z.shiftl check_interval 4)); reflexivity.
Qed.

Lemma evaluate_Fault (p2in : Z) (m : machine) :
  state m = FaultWaitingFull ->
  evaluate p2in m =
    if truthy p2in then (set_clk_count 0 (set_state 0 m), []) else (m, []).
Proof.
  unfold FaultWaitingFull, evaluate. intros ->.
  destruct (truthy p2in); reflexivity.
Qed.

Lemma evaluate_no_case (p2in : Z) (m : machine) :
  state m <> 0 -> state m <> 1 -> state m <> 2 -> state m <> 3 ->
  evaluate p2in m = (m, []).
Proof.
  unfold evaluate. intros H0 H1 H2 H3.
  destruct (state m) as [|p|p]; [congruence| |reflexivity].
  destruct p as [[q|q|]|[q|q|]|]; try reflexivity; congruence.
Qed.

(** An evaluation assigns to the two globals and then either is done or
    makes one call of [Solenoid_pulse], its last action. *)
Lemma evaluate_shape (p2in : Z) (m : machine) :
  exists m1,
    same_registers m m1 /\
    (evaluate p2in m = (m1, []) \/
     exists dir, evaluate p2in m = Solenoid_pulse dir m1).
Proof.
  destruct (Z.eq_dec (state m) 0) as [H0|H0];
    [rewrite (evaluate_Idle p2in m H0)|
  destruct (Z.eq_dec (state m) 1) as [H1|H1];
    [rewrite (evaluate_Filling p2in m H1)|
  destruct (Z.eq_dec (state m) 2) as [H2|H2];
    [rewrite (evaluate_Cooldown p2in m H2)|
  destruct (Z.eq_dec (state m) 3) as [H3|H3];
    [rewrite (evaluate_Fault p2in m H3)|
     rewrite (evaluate_no_case p2in m H0 H1 H2 H3)]]]];
  repeat match goal with
         | |- context [if ?b then _ else _] => destruct b
         end;
  (eexists; split;
   [|first [left; reflexivity | right; eexists; reflexivity]]);
  repeat split; reflexivity.
Qed.

(** ** The bridge inputs along a run of [main] *)

Lemma released_exclusive (m : machine) : released m -> exclusive m.
Proof. intros [Hon _]. unfold exclusive. now rewrite Hon. Qed.

(** Invariants of the ports along [main]: a property [Inv] of the port
    registers that every pulse re-establishes holds at every turn of the
    loop, and a property [Ok] of events that pulses and waits respect
    holds of the whole trace. *)
Section PortInvariant.

Variable Inv : machine -> Prop.
Variable Ok : event -> Prop.

Hypothesis Inv_registers :
  forall m m1, same_registers m m1 -> Inv m -> Inv m1.
Hypothesis Inv_pulse :
  forall dir m, Inv m ->
    Forall Ok (snd (Solenoid_pulse dir m)) /\
    Inv (fst (Solenoid_pulse dir m)).
Hypothesis Ok_sleep : forall m, Inv m -> Ok (LPM3 m).

Lemma evaluate_keeps (p2in : Z) (m : machine) :
  Inv m -> keeps Inv Ok (evaluate p2in) m.
Proof.
  intros Hi. unfold keeps.
  destruct (evaluate_shape p2in m) as (m1 & Hsame & [-> | [dir ->]]).
  - split; [constructor|]. exact (Inv_registers _ _ Hsame Hi).
  - apply Inv_pulse. exact (Inv_registers _ _ Hsame Hi).
Qed.

Lemma lpm3_keeps (m : machine) :
  Inv m -> keeps Inv Ok lpm3 m.
Proof.
  intros Hi. unfold keeps. run. split.
  - constructor; [apply Ok_sleep; exact Hi | constructor].
  - apply (Inv_registers m); [repeat split | exact Hi].
Qed.

Lemma seq_keeps (c1 c2 : cmd) (m : machine) :
  keeps Inv Ok c1 m ->
  (Inv (fst (c1 m)) -> keeps Inv Ok c2 (fst (c1 m))) ->
  keeps Inv Ok (c1 ;; c2) m.
Proof.
  unfold keeps. intros [H1 Hr1] H2. destruct (H2 Hr1) as [H2a H2b].
  rewrite seq_run. cbn [fst snd]. split; [|assumption].
  apply Forall_app. split; assumption.
Qed.

Lemma loop_keeps (samples : list Z) :
  forall m, Inv m -> keeps Inv Ok (loop samples) m.
Proof.
  induction samples as [|p2in rest IH]; intros m Hi.
  - split; [constructor | exact Hi].
  - cbn [loop]. apply seq_keeps; [|apply IH].
    unfold loop_body. apply seq_keeps; [apply evaluate_keeps; exact Hi|].
    apply lpm3_keeps.
Qed.

Lemma after_init_keeps (samples : list Z) (m : machine) :
  Inv m -> keeps Inv Ok (after_init samples) m.
Proof.
  intros Hi. unfold after_init.
  apply seq_keeps; [apply Inv_pulse; exact Hi | apply loop_keeps].
Qed.

End PortInvariant.

Lemma released_same_registers (m m1 : machine) :
  same_registers m m1 -> released m -> released m1.
Proof. intros (H1 & _) Hr. unfold released in *. now rewrite H1. Qed.

Lemma Solenoid_pulse_safe (dir : Z) (m : machine) :
  released m ->
  Forall event_safe (snd (Solenoid_pulse dir m)) /\
  released (fst (Solenoid_pulse dir m)).
Proof.
  intros Hr. split.
  - pose proof (released_exclusive m Hr) as Hx.
    destruct Hr as [Hon Hoff]. rewrite pin_Solenoid_on in Hon.
    rewrite pin_Solenoid_off in Hoff.
    run. destruct (truthy dir); run;
      repeat (constructor; [split; [|exact I || (split; assumption)]|]);
      try constructor; try assumption;
      unfold exclusive; run; pins; rewrite ?Hon, ?Hoff; reflexivity.
  - destruct (Solenoid_pulse_phases dir m) as (d1 & d2 & _ & _ & _ & Hd).
    exact (disabled_released _ Hd).
Qed.

Lemma sleep_safe (m : machine) : released m -> event_safe (LPM3 m).
Proof.
  intros Hr. split; [exact (released_exclusive m Hr) | exact Hr].
Qed.

Lemma port_init_released (m : machine) : released (fst (port_init m)).
Proof. run. split; reflexivity. Qed.

(** Bit 0 of both ports stays low along [main]: [port_init] leaves it
    low and every pulse clears it.  So the calls that [main] makes find
    it low, and return with every bit but the two solenoid bits, the LED
    and nSLEEP as they found it. *)
Lemma bit0_low_same_registers (m m1 : machine) :
  same_registers m m1 -> bit0_low m -> bit0_low m1.
Proof. intros (H1 & H2 & _) Hr. unfold bit0_low in *. now rewrite H1, H2. Qed.

Lemma Solenoid_pulse_bit0_low (dir : Z) (m : machine) :
  bit0_low m ->
  Forall call_bit0_low (snd (Solenoid_pulse dir m)) /\
  bit0_low (fst (Solenoid_pulse dir m)).
Proof.
  intros Hr. split; [|apply Solenoid_pulse_bit0].
  run. destruct (truthy dir); repeat constructor; apply Hr.
Qed.

Lemma main_calls_bit0_low (m0 : machine) (samples : list Z) :
  Forall call_bit0_low (snd (after_init samples (fst (port_init m0)))).
Proof.
  apply (after_init_keeps bit0_low call_bit0_low).
  - exact bit0_low_same_registers.
  - exact Solenoid_pulse_bit0_low.
  - intros m _. exact I.
  - split; reflexivity.
Qed.

Lemma Solenoid_pulse_frame_bit0_low (dir : Z) (m : machine) (i : Z) :
  bit0_low m -> 0 <= i < 8 ->
  (i <> 4 -> i <> 5 ->
   Z.testbit (P1OUT (fst (Solenoid_pulse dir m))) i = Z.testbit (P1OUT m) i) /\
  (i <> 1 -> i <> 3 ->
   Z.testbit (P2OUT (fst (Solenoid_pulse dir m))) i = Z.testbit (P2OUT m) i).
Proof.
  intros [H1 H2] Hi.
  destruct (Solenoid_pulse_frame dir m i Hi) as (F1 & F2 & _).
  destruct (Solenoid_pulse_bit0 dir m) as [B1 B2].
  destruct (Z.eq_dec i 0) as [->|Hn].
  - split; intros; congruence.
  - split; intros; [apply F1 | apply F2]; assumption.
Qed.

Lemma testbit_byte_high (z i : Z) :
  byte z -> 8 <= i -> Z.testbit z i = false.
Proof.
  intros Hz Hi. rewrite <- (Z.mod_small z (2 ^ 8)) by exact Hz.
  apply Z.mod_pow2_bits_high. lia.
Qed.

Lemma byte_u8 (z : Z) : byte (u8 z).
Proof. unfold byte, u8. apply Z.mod_pos_bound. reflexivity. Qed.

Lemma Solenoid_pulse_bytes (dir : Z) (m : machine) :
  byte (P1OUT (fst (Solenoid_pulse dir m))) /\
  byte (P2OUT (fst (Solenoid_pulse dir m))).
Proof. run. destruct (truthy dir); run; split; apply byte_u8. Qed.

Lemma pulse_frame_call_ready (dir : Z) (m : machine) :
  call_ready m -> pulse_frame m (fst (Solenoid_pulse dir m)).
Proof.
  intros (Hb & H1 & H2) i.
  change (Z.log2 Solenoid_on) with 4. change (Z.log2 Solenoid_off) with 5.
  change (Z.log2 LED) with 3. change (Z.log2 nSLEEP) with 1.
  destruct (Solenoid_pulse_bytes dir m) as [B1 B2].
  destruct (Z.lt_ge_cases i 0) as [Hneg|Hpos].
  - rewrite !Z.testbit_neg_r by assumption. split; reflexivity.
  - destruct (Z.lt_ge_cases i 8) as [Hlt|Hge].
    + destruct (Solenoid_pulse_frame_bit0_low dir m i Hb (conj Hpos Hlt))
        as [F1 F2].
      split; intros; [apply F1 | apply F2]; assumption.
    + rewrite (testbit_byte_high _ i B1 Hge), (testbit_byte_high _ i B2 Hge),
        (testbit_byte_high _ i H1 Hge), (testbit_byte_high _ i H2 Hge).
      split; reflexivity.
Qed.

Lemma no_pulses_call_frame (t : list event) :
  pulses t = [] -> Forall call_frame t.
Proof.
  induction t as [|e t IH]; intros Hp; [constructor|].
  destruct e; cbn [pulses] in Hp; try discriminate Hp;
    (constructor; [exact I | exact (IH Hp)]).
Qed.

Lemma Solenoid_pulse_trace (dir : Z) (m : machine) :
  exists t, snd (Solenoid_pulse dir m) = Call dir m :: t /\ pulses t = [].
Proof. run. destruct (truthy dir); eexists; split; reflexivity. Qed.

Lemma call_ready_same_registers (m m1 : machine) :
  same_registers m m1 -> call_ready m -> call_ready m1.
Proof.
  intros (H1 & H2 & _) Hr. unfold call_ready, bit0_low in *.
  now rewrite H1, H2.
Qed.

Lemma Solenoid_pulse_call_ready (dir : Z) (m : machine) :
  call_ready m ->
  Forall call_frame (snd (Solenoid_pulse dir m)) /\
  call_ready (fst (Solenoid_pulse dir m)).
Proof.
  intros Hr. split.
  - destruct (Solenoid_pulse_trace dir m) as (t & -> & Hp).
    constructor; [|exact (no_pulses_call_frame t Hp)].
    exact (pulse_frame_call_ready dir m Hr).
  - split; [apply Solenoid_pulse_bit0 | apply Solenoid_pulse_bytes].
Qed.

Lemma port_init_call_ready (m0 : machine) : call_ready (fst (port_init m0)).
Proof.
  unfold call_ready, bit0_low, byte. run.
  repeat split; try reflexivity; discriminate.
Qed.

(** C9: in every run of [main], from whatever registers the machine
    powers on with and whatever the input port reads, every call of
    [Solenoid_pulse] returns with every bit of P1OUT other than the two
    solenoid bits (P1.4, P1.5) and every bit of P2OUT other than the LED
    bit (P2.3) and the nSLEEP bit (P2.1) as it found them. *)
Theorem main_pulse_frame (m0 : machine) (samples : list Z) :
  Forall call_frame (snd (main samples m0)).
Proof.
  unfold main. rewrite seq_run. cbn [snd].
  apply Forall_app. split.
  - run. repeat constructor.
  - apply (after_init_keeps call_ready call_frame).
    + exact call_ready_same_registers.
    + exact Solenoid_pulse_call_ready.
    + intros m _. exact I.
    + apply port_init_call_ready.
Qed.

(** C10: after the port initialisation of [main] both bridge inputs are
    low; along every run of the rest of [main], whatever the input port
    reads, the two inputs are never high together, and every call of
    [Solenoid_pulse] is entered with both low.  A pulse entered with both
    low drives exactly the input of its direction, has both low again in
    the decay phase, and returns with both low. *)
Theorem drive_bits_exclusive :
  (forall m0 samples,
      released (fst (port_init m0)) /\
      Forall event_safe (snd (after_init samples (fst (port_init m0)))) /\
      released (fst (after_init samples (fst (port_init m0))))) /\
  (forall dir m,
      released m ->
      exists d1 d2,
        phases (snd (Solenoid_pulse dir m)) = [d1; d2] /\
        pin (drive_mask dir) (P1OUT d1) = true /\
        pin (other_mask dir) (P1OUT d1) = false /\
        released d2 /\
        released (fst (Solenoid_pulse dir m))).
Proof.
  split.
  - intros m0 samples.
    pose proof (port_init_released m0) as Hr.
    split; [exact Hr|].
    apply (after_init_keeps released event_safe).
    + exact released_same_registers.
    + exact Solenoid_pulse_safe.
    + exact sleep_safe.
    + exact Hr.
  - intros dir m [Hon Hoff].
    destruct (Solenoid_pulse_phases dir m)
      as (d1 & d2 & Hp & Hd1 & Hd2 & Hx).
    exists d1, d2. split; [exact Hp|].
    destruct Hd1 as (Hdrv & Hoth & _).
    split; [exact Hdrv|].
    split; [rewrite Hoth; unfold other_mask; destruct (truthy dir); assumption|].
    split; [destruct Hd2 as (A & B & _); split; assumption|].
    exact (disabled_released _ Hx).
Qed.

Lemma drive_bits_exclusive_witness :
  released zero_machine /\
  exists d1 d2,
    phases (snd (Solenoid_pulse on zero_machine)) = [d1; d2] /\
    pin (drive_mask on) (P1OUT d1) = true /\
    pin (other_mask on) (P1OUT d1) = false /\
    released d2 /\
    released (fst (Solenoid_pulse on zero_machine)).
Proof.
  assert (H : released zero_machine) by (split; reflexivity).
  split; [exact H|].
  exact (proj2 drive_bits_exclusive on zero_machine H).
Defined.

(** C7: whatever the state, the tick count and the value read from the
    input port, one evaluation of the controller calls [Solenoid_pulse]
    at most once. *)
Theorem evaluate_pulses_at_most_once (p2in : Z) (m : machine) :
  (length (pulses (snd (evaluate p2in m))) <= 1)%nat.
Proof.
  destruct (evaluate_shape p2in m) as (m1 & _ & [-> | [dir ->]]).
  - cbn. lia.
  - rewrite pulses_Solenoid_pulse. cbn. lia.
Qed.

(** ** The transitions of the controller *)

Lemma float_switch_false (p2in : Z) :
  float_switch p2in = false <-> (Z.land p2in Tank_Full =? 0) = true.
Proof. unfold float_switch. destruct (Z.land p2in Tank_Full =? 0); easy. Qed.

Ltac after_pulse :=
  repeat match goal with
         | |- context [state (fst (Solenoid_pulse ?d ?m))] =>
             rewrite (proj2 (Solenoid_pulse_globals d m))
         | |- context [clk_count (fst (Solenoid_pulse ?d ?m))] =>
             rewrite (proj1 (Solenoid_pulse_globals d m))
         | |- context [pulses (snd (Solenoid_pulse ?d ?m))] =>
             rewrite (pulses_Solenoid_pulse d m)
         end;
  cbn [fst snd pulses clk_count state set_clk_count set_state].

(** C1: an evaluation in Idle moves to Filling, clears the tick count
    and pulses the valve open exactly when the tick count exceeds
    CheckIntervalTicks and the float switch reads low; with the tick
    count at or below CheckIntervalTicks nothing changes and no pulse is
    issued. *)
Theorem Idle_evaluation (p2in : Z) (m : machine) :
  state m = Idle ->
  ((state (fst (evaluate p2in m)) = Filling /\
    clk_count (fst (evaluate p2in m)) = 0 /\
    pulses (snd (evaluate p2in m)) = [on]) <->
   (clk_count m > CheckIntervalTicks /\ float_switch p2in = false)) /\
  (clk_count m <= CheckIntervalTicks -> evaluate p2in m = (m, [])).
Proof.
  intros Hs. rewrite (evaluate_Idle p2in m Hs).
  rewrite float_switch_false. unfold CheckIntervalTicks. rewrite Z.gtb_ltb.
  unfold Idle, Filling in *.
  destruct (Z.ltb_spec check_interval (clk_count m)) as [Hc|Hc];
    destruct (Z.land p2in Tank_Full =? 0); after_pulse;
    (split; [split|]);
    try (intros (A & B & C)); try (intros [A B]); try (intros A);
    repeat split; try reflexivity; try lia; try congruence.
Qed.

Lemma Idle_evaluation_witness :
  state (set_clk_count 3 zero_machine) = Idle /\
  state (fst (evaluate 0 (set_clk_count 3 zero_machine))) = Filling /\
  clk_count (fst (evaluate 0 (set_clk_count 3 zero_machine))) = 0 /\
  pulses (snd (evaluate 0 (set_clk_count 3 zero_machine))) = [on].
Proof.
  split; [reflexivity|].
  apply (Idle_evaluation 0 (set_clk_count 3 zero_machine)).
  - reflexivity.
  - split; [vm_compute; reflexivity | reflexivity].
Defined.

(** X10, what line 101 does: in Filling the valve is closed, the tick count
    cleared and CooldownHysteresis entered exactly when the tick count
    exceeds MinOnTicks and the whole input port reads non-zero. *)
Lemma Filling_evaluation_raw_port (p2in : Z) (m : machine) :
  state m = Filling ->
  ((state (fst (evaluate p2in m)) = CooldownHysteresis /\
    clk_count (fst (evaluate p2in m)) = 0 /\
    pulses (snd (evaluate p2in m)) = [off]) <->
   (clk_count m > MinOnTicks /\ p2in <> 0)) /\
  (clk_count m <= MinOnTicks -> evaluate p2in m = (m, [])).
Proof.
  intros Hs. rewrite (evaluate_Filling p2in m Hs).
  unfold MinOnTicks, truthy. rewrite Z.gtb_ltb.
  unfold Filling, CooldownHysteresis in *.
  destruct (Z.ltb_spec 1 (clk_count m)) as [Hc|Hc];
    destruct (Z.eqb_spec p2in 0) as [Hp|Hp]; cbn [negb];
    try destruct (clk_count m >=? u16 (Z.shiftl check_interval 5));
    after_pulse;
    (split; [split|]);
    try (intros (A & B & C)); try (intros [A B]); try (intros A);
    repeat split; try reflexivity; try lia; try congruence.
Qed.

(** When only the Tank_Full pin of the input port can read high, the
    raw test of the port and the float switch agree. *)
Lemma truthy_float_switch (p2in : Z) :
  Z.land p2in Tank_Full = p2in -> truthy p2in = float_switch p2in.
Proof. intros H. unfold float_switch. now rewrite H. Qed.

(** C2, evaluated where it fails: in Filling with the tick count above
    MinOnTicks and an input port that reads 0x01 (float switch low,
    P2.0 high), the controller closes the valve, clears the tick count
    and enters CooldownHysteresis. *)
Theorem Filling_closes_on_raw_port :
  let m := set_clk_count 2 (set_state Filling zero_machine) in
  float_switch 0x01 = false /\
  clk_count m > MinOnTicks /\
  state (fst (evaluate 0x01 m)) = CooldownHysteresis /\
  clk_count (fst (evaluate 0x01 m)) = 0 /\
  pulses (snd (evaluate 0x01 m)) = [off].
Proof. vm_compute. repeat split. Qed.

(** X11, what line 123 does: FaultWaitingFull is left for Idle, with the tick
    count cleared, exactly when the whole input port reads non-zero; no
    evaluation in this state issues a pulse. *)
Lemma Fault_evaluation_raw_port (p2in : Z) (m : machine) :
  state m = FaultWaitingFull ->
  ((state (fst (evaluate p2in m)) = Idle /\
    clk_count (fst (evaluate p2in m)) = 0) <-> p2in <> 0) /\
  (p2in = 0 -> evaluate p2in m = (m, [])) /\
  pulses (snd (evaluate p2in m)) = [].
Proof.
  intros Hs. rewrite (evaluate_Fault p2in m Hs).
  unfold truthy. unfold FaultWaitingFull, Idle in *.
  destruct (Z.eqb_spec p2in 0) as [Hp|Hp]; cbn [negb]; after_pulse;
    (split; [split|split]);
    try (intros [A B]); try (intros A);
    repeat split; try reflexivity; try lia; try congruence.
Qed.

(** C4, evaluated where it fails: in FaultWaitingFull with an input port
    that reads 0x01 (float switch low, P2.0 high), the controller
    returns to Idle and clears the tick count. *)
Theorem Fault_clears_on_raw_port :
  let m := set_clk_count 100 (set_state FaultWaitingFull zero_machine) in
  float_switch 0x01 = false /\
  state (fst (evaluate 0x01 m)) = Idle /\
  clk_count (fst (evaluate 0x01 m)) = 0 /\
  pulses (snd (evaluate 0x01 m)) = [].
Proof. vm_compute. repeat split. Qed.

(** C8: an evaluation in CooldownHysteresis clears the tick count and
    returns to Idle exactly when the tick count has reached
    CooldownTicks, whatever the input port reads; otherwise nothing
    changes; no evaluation in this state issues a pulse. *)
Theorem Cooldown_evaluation (p2in : Z) (m : machine) :
  state m = CooldownHysteresis ->
  ((state (fst (evaluate p2in m)) = Idle /\
    clk_count (fst (evaluate p2in m)) = 0) <->
   clk_count m >= CooldownTicks) /\
  (clk_count m < CooldownTicks -> evaluate p2in m = (m, [])) /\
  pulses (snd (evaluate p2in m)) = [].
Proof.
  intros Hs. rewrite (evaluate_Cooldown p2in m Hs).
  unfold CooldownTicks. rewrite Z.geb_leb.
  unfold CooldownHysteresis, Idle in *.
  destruct (Z.leb_spec (u16 (Z.shiftl check_interval 4)) (clk_count m))
    as [Hc|Hc]; after_pulse;
    (split; [split|split]);
    try (intros [A B]); try (intros A);
    repeat split; try reflexivity; try lia; try congruence.
Qed.

Lemma Cooldown_evaluation_witness :
  state (set_clk_count 32 (set_state 2 zero_machine)) = CooldownHysteresis /\
  CooldownTicks = 32 /\
  state (fst (evaluate 0 (set_clk_count 32 (set_state 2 zero_machine)))) = Idle /\
  clk_count (fst (evaluate 0 (set_clk_count 32 (set_state 2 zero_machine)))) = 0.
Proof.
  split; [reflexivity|]. split; [reflexivity|].
  apply (Cooldown_evaluation 0 (set_clk_count 32 (set_state 2 zero_machine))).
  - reflexivity.
  - vm_compute. discriminate.
Defined.

(** ** The tick count *)

Lemma evaluate_clk_count (p2in : Z) (m : machine) :
  (listed_reset m (fst (evaluate p2in m)) /\
   clk_count (fst (evaluate p2in m)) = 0) \/
  (~ listed_reset m (fst (evaluate p2in m)) /\
   clk_count (fst (evaluate p2in m)) = clk_count m).
Proof.
  unfold listed_reset, CheckIntervalTicks, Idle, Filling,
    CooldownHysteresis, FaultWaitingFull.
  destruct (Z.eq_dec (state m) 0) as [H0|H0];
    [rewrite (evaluate_Idle p2in m H0)|
  destruct (Z.eq_dec (state m) 1) as [H1|H1];
    [rewrite (evaluate_Filling p2in m H1)|
  destruct (Z.eq_dec (state m) 2) as [H2|H2];
    [rewrite (evaluate_Cooldown p2in m H2)|
  destruct (Z.eq_dec (state m) 3) as [H3|H3];
    [rewrite (evaluate_Fault p2in m H3)|
     rewrite (evaluate_no_case p2in m H0 H1 H2 H3)]]]];
  rewrite ?Z.gtb_ltb;
  try destruct (Z.ltb_spec check_interval (clk_count m));
  repeat match goal with
         | |- context [if ?b then _ else _] => destruct b
         end;
  after_pulse;
  first [ left; split; [|reflexivity]; lia
        | right; split; [|reflexivity]; lia ].
Qed.

(** C6, as the code has it: an evaluation of the controller clears the
    tick count at the listed transitions (the Idle boundary with either
    switch reading, Filling to CooldownHysteresis, CooldownHysteresis to
    Idle, FaultWaitingFull to Idle) and leaves it unchanged otherwise;
    the pulse driver, the port initialisation and the Timer_A handler
    leave it unchanged; the watchdog handler replaces it by its
    successor modulo 2^16, which is an increment by exactly 1 below
    65535. *)
Theorem clk_count_changes :
  (forall p2in m,
      (listed_reset m (fst (evaluate p2in m)) ->
       clk_count (fst (evaluate p2in m)) = 0) /\
      (~ listed_reset m (fst (evaluate p2in m)) ->
       clk_count (fst (evaluate p2in m)) = clk_count m)) /\
  (forall dir m, clk_count (fst (Solenoid_pulse dir m)) = clk_count m) /\
  (forall m, clk_count (fst (port_init m)) = clk_count m) /\
  (forall m, clk_count (fst (Timer_A m)) = clk_count m) /\
  (forall m, clk_count (fst (watchdog_timer m)) = (clk_count m + 1) mod 2 ^ 16) /\
  (forall m, 0 <= clk_count m < 65535 ->
             clk_count (fst (watchdog_timer m)) = clk_count m + 1).
Proof.
  split.
  { intros p2in m.
    destruct (evaluate_clk_count p2in m) as [[Hl Hc]|[Hl Hc]];
      split; intros H; try assumption; contradiction. }
  split; [intros dir m; apply Solenoid_pulse_globals|].
  repeat split; intros m; try reflexivity.
  intros Hr. run. unfold u16. apply Z.mod_small. lia.
Qed.

Lemma clk_count_changes_witness :
  listed_reset (set_clk_count 3 zero_machine)
               (fst (evaluate 0 (set_clk_count 3 zero_machine))) /\
  clk_count (fst (evaluate 0 (set_clk_count 3 zero_machine))) = 0 /\
  ~ listed_reset zero_machine (fst (evaluate 0 zero_machine)) /\
  clk_count (fst (evaluate 0 zero_machine)) = clk_count zero_machine /\
  0 <= clk_count zero_machine < 65535 /\
  clk_count (fst (watchdog_timer zero_machine)) = clk_count zero_machine + 1.
Proof.
  assert (H1 : listed_reset (set_clk_count 3 zero_machine)
                 (fst (evaluate 0 (set_clk_count 3 zero_machine)))).
  { left. vm_compute. repeat split. right. reflexivity. }
  assert (H2 : ~ listed_reset zero_machine (fst (evaluate 0 zero_machine))).
  { vm_compute. intros [(_ & H & _)|[(H & _)|[(H & _)|(H & _)]]];
      discriminate H. }
  assert (H3 : 0 <= clk_count zero_machine < 65535) by (vm_compute; split; congruence).
  split; [exact H1|].
  split; [exact (proj1 (proj1 clk_count_changes 0 _) H1)|].
  split; [exact H2|].
  split; [exact (proj2 (proj1 clk_count_changes 0 _) H2)|].
  split; [exact H3|].
  exact (proj2 (proj2 (proj2 (proj2 (proj2 clk_count_changes)))) _ H3).
Defined.

(** The watchdog handler at 65535: the tick count becomes 0, not 65536,
    with the controller in FaultWaitingFull. *)
Lemma watchdog_timer_wraps :
  let m := set_clk_count 65535 (set_state FaultWaitingFull zero_machine) in
  clk_count (fst (watchdog_timer m)) = 0 /\
  clk_count (fst (watchdog_timer m)) <> clk_count m + 1.
Proof. vm_compute. split; [reflexivity | discriminate]. Qed.

(** A run of [main] with the input port reading 0 throughout reaches
    FaultWaitingFull with the tick count at 65535; the next watchdog
    interrupt takes the count to 0 while the state stays. *)
Lemma clk_count_wraps_in_Fault :
  let r := main (repeat 0 (Z.to_nat 65538)) (startup zero_machine) in
  state (fst r) = FaultWaitingFull /\
  clk_count (fst r) = 65535 /\
  state (fst (loop_body 0 (fst r))) = FaultWaitingFull /\
  clk_count (fst (loop_body 0 (fst r))) = 0.
Proof. vm_compute. repeat split. Qed.

(** ** Filling with a float switch that stays low *)

Lemma loop_body_run (p2in : Z) (m : machine) :
  fst (loop_body p2in m)
  = set_clk_count (u16 (clk_count (fst (evaluate p2in m)) + 1))
                  (fst (evaluate p2in m)) /\
  pulses (snd (loop_body p2in m)) = pulses (snd (evaluate p2in m)).
Proof.
  unfold loop_body. rewrite seq_run. cbn [fst snd]. rewrite pulses_app.
  run. split; [reflexivity | apply app_nil_r].
Qed.

(** While the whole input port reads 0 and the tick count is below
    MaxOnTicks, the controller stays in Filling, counts every tick and
    issues no pulse. *)
Lemma Filling_waits (n : nat) :
  forall m,
    state m = Filling -> 0 <= clk_count m ->
    clk_count m + Z.of_nat n <= MaxOnTicks ->
    state (fst (loop (repeat 0 n) m)) = Filling /\
    clk_count (fst (loop (repeat 0 n) m)) = clk_count m + Z.of_nat n /\
    pulses (snd (loop (repeat 0 n) m)) = [].
Proof.
  induction n as [|n IH]; intros m Hs Hlo Hhi.
  - cbn. repeat split; [assumption | lia].
  - cbn [repeat loop]. rewrite seq_run. cbn [fst snd]. rewrite pulses_app.
    destruct (loop_body_run 0 m) as [Hm Hp]. rewrite Hp.
    assert (He : evaluate 0 m = (m, [])).
    { rewrite (evaluate_Filling 0 m Hs). cbn [truthy Z.eqb negb].
      change (u16 (Z.shiftl check_interval 5)) with 64.
      change MaxOnTicks with 64 in Hhi.
      destruct (clk_count m >? 1); [|reflexivity].
      rewrite Z.geb_leb. destruct (Z.leb_spec 64 (clk_count m)); [lia|].
      reflexivity. }
    rewrite He in Hm |- *. cbn [fst snd pulses app] in Hm |- *.
    change MaxOnTicks with 64 in Hhi.
    assert (Hu : u16 (clk_count m + 1) = clk_count m + 1)
      by (unfold u16; apply Z.mod_small; lia).
    rewrite Hu in Hm.
    destruct (IH (fst (loop_body 0 m))) as (A & B & C).
    + rewrite Hm. exact Hs.
    + rewrite Hm. cbn [clk_count set_clk_count]. lia.
    + rewrite Hm. cbn [clk_count set_clk_count]. change MaxOnTicks with 64. lia.
    + rewrite A, B, C, Hm. cbn [clk_count set_clk_count].
      repeat split. lia.
Qed.

(** X12: with the whole input port reading 0 from the entry into Filling on,
    the evaluations at tick counts 1 to 63 leave the controller in
    Filling without a pulse; the evaluation at 64, the first with the
    count at MaxOnTicks, closes the valve and enters FaultWaitingFull
    with the count still 64. *)
Lemma Filling_times_out (m : machine) :
  state m = Filling -> clk_count m = 1 ->
  let m63 := fst (loop (repeat 0 63) m) in
  (forall n, (n <= 63)%nat ->
     state (fst (loop (repeat 0 n) m)) = Filling /\
     clk_count (fst (loop (repeat 0 n) m)) = 1 + Z.of_nat n /\
     pulses (snd (loop (repeat 0 n) m)) = []) /\
  clk_count m63 = MaxOnTicks /\
  state (fst (evaluate 0 m63)) = FaultWaitingFull /\
  clk_count (fst (evaluate 0 m63)) = MaxOnTicks /\
  pulses (snd (evaluate 0 m63)) = [off].
Proof.
  intros Hs Hc m63.
  assert (Hn : forall n, (n <= 63)%nat ->
     state (fst (loop (repeat 0 n) m)) = Filling /\
     clk_count (fst (loop (repeat 0 n) m)) = 1 + Z.of_nat n /\
     pulses (snd (loop (repeat 0 n) m)) = []).
  { intros n Hle. rewrite <- Hc. apply Filling_waits; [assumption|lia|].
    change MaxOnTicks with 64. lia. }
  split; [exact Hn|].
  destruct (Hn 63%nat (Nat.le_refl _)) as (A & B & _). fold m63 in A, B.
  change (1 + Z.of_nat 63) with 64 in B. change MaxOnTicks with 64.
  split; [exact B|].
  rewrite (evaluate_Filling 0 m63 A), B. cbn [truthy Z.eqb negb].
  change (64 >? 1) with true. change (64 >=? u16 (Z.shiftl check_interval 5)) with true.
  cbv iota. after_pulse. unfold FaultWaitingFull. repeat split. exact B.
Qed.

(** C3, evaluated where it fails: a run of [main] in which the input
    port reads 0x01 at every evaluation, so that the float switch reads
    low throughout.  The valve is opened at the fourth evaluation; two
    evaluations later, at tick count 2, the controller closes it, clears
    the count and enters CooldownHysteresis; FaultWaitingFull is never
    entered. *)
Theorem Filling_leaves_on_raw_port :
  let samples := repeat 0x01 6 in
  let r := main samples (startup zero_machine) in
  Forall (fun p2in => float_switch p2in = false) samples /\
  map state (sleeps (snd r)) =
    [Idle; Idle; Idle; Filling; Filling; CooldownHysteresis] /\
  map clk_count (sleeps (snd r)) = [0; 1; 2; 0; 1; 0] /\
  pulses (snd r) = [off; on; off] /\
  2 < MaxOnTicks.
Proof.
  vm_compute. split; [repeat constructor | repeat split].
Qed.


(** * Further properties of the pulse driver *)

Lemma u8_ext (a b : Z) :
  (forall i, 0 <= i < 8 -> Z.testbit a i = Z.testbit b i) -> u8 a = u8 b.
Proof.
  intros H. apply Z.bits_inj'. intros n Hn.
  destruct (Z.lt_ge_cases n 8) as [Hlt|Hge].
  - rewrite !testbit_u8 by lia. apply H. lia.
  - unfold u8. rewrite !Z.mod_pow2_bits_high by lia. reflexivity.
Qed.

(** Decide an equation between bytes built from one register by the
    masks of the source, bit by bit. *)
Ltac byte_eq :=
  apply u8_ext; intros i Hi;
  repeat first [rewrite Z.land_spec | rewrite Z.lor_spec
               | rewrite testbit_u8 by lia];
  let Hc := fresh "Hc" in
  assert (Hc : i = 0 \/ i = 1 \/ i = 2 \/ i = 3 \/ i = 4 \/ i = 5 \/
               i = 6 \/ i = 7) by lia;
  repeat (destruct Hc as [-> | Hc]); try subst i;
  mask_bits;
  repeat match goal with
         | |- context [Z.testbit ?x ?k] => destruct (Z.testbit x k)
         end;
  reflexivity.

Lemma machine_ext (m m' : machine) :
  P1DIR m = P1DIR m' -> P1OUT m = P1OUT m' ->
  P2DIR m = P2DIR m' -> P2OUT m = P2OUT m' ->
  TA0CCTL0 m = TA0CCTL0 m' -> TA0CCR0 m = TA0CCR0 m' ->
  TA0CTL m = TA0CTL m' ->
  clk_count m = clk_count m' -> state m = state m' ->
  m = m'.
Proof.
  destruct m, m'. cbn. intros. subst. reflexivity.
Qed.

Lemma Solenoid_pulse_exit_any_dir (d1 d2 : Z) (m : machine) :
  fst (Solenoid_pulse d1 m) = fst (Solenoid_pulse d2 m).
Proof.
  apply machine_ext; run; destruct (truthy d1), (truthy d2); run;
    try reflexivity; byte_eq.
Qed.

Lemma Solenoid_pulse_exit_again (d : Z) (m : machine) :
  fst (Solenoid_pulse d (fst (Solenoid_pulse d m))) = fst (Solenoid_pulse d m).
Proof.
  apply machine_ext; run; destruct (truthy d); run;
    try reflexivity; byte_eq.
Qed.

(** X1: the machine a pulse returns in does not depend on its
    direction, and a second pulse, in whatever direction, returns in the
    same machine as the first: the program keeps no record of the
    position of the valve in its registers. *)
Theorem Solenoid_pulse_exit :
  (forall d1 d2 m, fst (Solenoid_pulse d1 m) = fst (Solenoid_pulse d2 m)) /\
  (forall d1 d2 m,
      fst ((Solenoid_pulse d1 ;; Solenoid_pulse d2) m)
      = fst (Solenoid_pulse d1 m)).
Proof.
  split; [exact Solenoid_pulse_exit_any_dir|].
  intros d1 d2 m. rewrite seq_run. cbn [fst].
  rewrite (Solenoid_pulse_exit_any_dir d2 d1).
  apply Solenoid_pulse_exit_again.
Qed.

(** X2: what a pulse can change, for every direction and entry machine.
    The port directions, the tick count and the state are unchanged; of
    P1OUT only bits 0, 4 and 5 can change and of P2OUT only bits 0, 1
    and 3; Timer_A is left with its interrupt disabled, counting in up
    mode towards [decay_delay]. *)
Theorem Solenoid_pulse_modifies (dir : Z) (m : machine) (i : Z) :
  0 <= i < 8 ->
  let m' := fst (Solenoid_pulse dir m) in
  (i <> 0 -> i <> 4 -> i <> 5 ->
   Z.testbit (P1OUT m') i = Z.testbit (P1OUT m) i) /\
  (i <> 0 -> i <> 1 -> i <> 3 ->
   Z.testbit (P2OUT m') i = Z.testbit (P2OUT m) i) /\
  P1DIR m' = P1DIR m /\ P2DIR m' = P2DIR m /\
  clk_count m' = clk_count m /\ state m' = state m /\
  TA0CCTL0 m' = CCTL_0 /\ TA0CCR0 m' = decay_delay /\
  TA0CTL m' = TASSEL_2_MC_1.
Proof.
  intros Hi m'. subst m'.
  destruct (Solenoid_pulse_frame dir m i Hi) as (F1 & F2 & F3 & F4).
  destruct (Solenoid_pulse_globals dir m) as [G1 G2].
  repeat (split; [assumption|]).
  run. destruct (truthy dir); repeat split.
Qed.

Lemma Solenoid_pulse_modifies_witness :
  0 <= 2 < 8 /\
  Z.testbit (P1OUT (fst (Solenoid_pulse on (set_P1OUT 0x04 zero_machine)))) 2
  = Z.testbit (P1OUT (set_P1OUT 0x04 zero_machine)) 2.
Proof.
  assert (H : 0 <= 2 < 8) by lia.
  split; [exact H|].
  apply (Solenoid_pulse_modifies on (set_P1OUT 0x04 zero_machine) 2 H); lia.
Defined.

(** * Further properties of [main] *)

Lemma sleeps_app (t1 t2 : list event) :
  sleeps (t1 ++ t2) = sleeps t1 ++ sleeps t2.
Proof.
  induction t1 as [|e t1 IH]; [reflexivity|].
  destruct e; cbn [app sleeps]; rewrite IH; reflexivity.
Qed.

Lemma evaluate_shape_hardware (p2in : Z) (m : machine) :
  exists m1,
    same_hardware m m1 /\
    (evaluate p2in m = (m1, []) \/
     exists dir, evaluate p2in m = Solenoid_pulse dir m1).
Proof.
  destruct (Z.eq_dec (state m) 0) as [H0|H0];
    [rewrite (evaluate_Idle p2in m H0)|
  destruct (Z.eq_dec (state m) 1) as [H1|H1];
    [rewrite (evaluate_Filling p2in m H1)|
  destruct (Z.eq_dec (state m) 2) as [H2|H2];
    [rewrite (evaluate_Cooldown p2in m H2)|
  destruct (Z.eq_dec (state m) 3) as [H3|H3];
    [rewrite (evaluate_Fault p2in m H3)|
     rewrite (evaluate_no_case p2in m H0 H1 H2 H3)]]]];
  repeat match goal with
         | |- context [if ?b then _ else _] => destruct b
         end;
  (eexists; split;
   [|first [left; reflexivity | right; eexists; reflexivity]]);
  repeat split; reflexivity.
Qed.

Lemma sleeps_Solenoid_pulse (dir : Z) (m : machine) :
  sleeps (snd (Solenoid_pulse dir m)) = [].
Proof. run. destruct (truthy dir); reflexivity. Qed.

Lemma sleeps_evaluate (p2in : Z) (m : machine) :
  sleeps (snd (evaluate p2in m)) = [].
Proof.
  destruct (evaluate_shape p2in m) as (m1 & _ & [-> | [dir ->]]);
    [reflexivity | apply sleeps_Solenoid_pulse].
Qed.

Lemma loop_body_sleeps (p2in : Z) (m : machine) :
  sleeps (snd (loop_body p2in m)) = [fst (evaluate p2in m)].
Proof.
  unfold loop_body. rewrite seq_run. cbn [snd].
  rewrite sleeps_app, sleeps_evaluate. reflexivity.
Qed.

(** Invariants of the loop of [main]: [J] holds whenever an evaluation
    starts and [K] whenever the loop goes to sleep. *)
Section LoopInvariant.

Variable J : machine -> Prop.
Variable K : machine -> Prop.

Hypothesis J_step :
  forall p2in m, J m ->
    K (fst (evaluate p2in m)) /\ J (fst (loop_body p2in m)).

Lemma loop_invariant (samples : list Z) :
  forall m, J m ->
    Forall K (sleeps (snd (loop samples m))) /\ J (fst (loop samples m)).
Proof.
  induction samples as [|p2in rest IH]; intros m Hj.
  - split; [constructor | exact Hj].
  - cbn [loop]. rewrite seq_run. cbn [fst snd].
    rewrite sleeps_app, loop_body_sleeps.
    destruct (J_step p2in m Hj) as [Hk Hj'].
    destruct (IH _ Hj') as [Hks Hjs].
    split; [constructor; assumption | assumption].
Qed.

End LoopInvariant.

Lemma main_run (samples : list Z) (m0 : machine) :
  let m2 := fst (Solenoid_pulse off (fst (port_init m0))) in
  fst (main samples m0) = fst (loop samples m2) /\
  sleeps (snd (main samples m0)) = sleeps (snd (loop samples m2)) /\
  pulses (snd (main samples m0)) = off :: pulses (snd (loop samples m2)).
Proof.
  unfold main, after_init. rewrite !seq_run. cbn [fst snd].
  rewrite !sleeps_app, !pulses_app, sleeps_Solenoid_pulse,
    pulses_Solenoid_pulse.
  repeat split.
Qed.

(** ** The hardware at the waits *)

Lemma quiet_same_hardware (m m1 : machine) :
  same_hardware m m1 -> quiet m -> quiet m1.
Proof.
  intros (A & B & C & D & E & _) (Q1 & Q2 & Q3 & Q4 & Q5).
  unfold quiet. rewrite A, B, C, D, E. repeat split; assumption.
Qed.

Lemma Solenoid_pulse_quiet (dir : Z) (m : machine) :
  quiet m -> quiet (fst (Solenoid_pulse dir m)).
Proof.
  intros (Q1 & Q2 & Q3 & Q4 & Q5). unfold quiet.
  run. destruct (truthy dir); run; rewrite ?Q1, ?Q2;
    repeat split; assumption || (vm_compute; reflexivity).
Qed.

Lemma first_pulse_quiet (m0 : machine) :
  quiet (fst (Solenoid_pulse off (fst (port_init m0)))).
Proof.
  unfold quiet. run. change (truthy off) with false. run.
  repeat split; vm_compute; reflexivity.
Qed.

Lemma quiet_step (p2in : Z) (m : machine) :
  quiet m -> quiet (fst (evaluate p2in m)) /\ quiet (fst (loop_body p2in m)).
Proof.
  intros Hq.
  assert (He : quiet (fst (evaluate p2in m))).
  { destruct (evaluate_shape_hardware p2in m) as (m1 & Hs & [-> | [dir ->]]).
    - exact (quiet_same_hardware _ _ Hs Hq).
    - apply Solenoid_pulse_quiet. exact (quiet_same_hardware _ _ Hs Hq). }
  split; [exact He|].
  rewrite (proj1 (loop_body_run p2in m)). exact He.
Qed.

Lemma Solenoid_pulse_armed (dir : Z) (m : machine) :
  Forall wait_armed (snd (Solenoid_pulse dir m)).
Proof.
  run. destruct (truthy dir); run;
    repeat (constructor; [first [exact I | unfold wait_armed, armed; run;
      repeat split; try reflexivity; try (left; reflexivity);
      try (right; reflexivity); pins; reflexivity]|]);
    constructor.
Qed.

Lemma phases_armed (t : list event) :
  Forall wait_armed t -> Forall armed (phases t).
Proof.
  induction 1 as [|e t He _ IH]; [constructor|].
  destruct e; cbn [phases]; try exact IH. constructor; assumption.
Qed.

(** X3: in every run of [main], from whatever registers the machine
    powers on with and whatever the input port reads, each timed wait
    of the pulse driver is entered with Timer_A's interrupt enabled,
    the timer running towards [flash_delay] or [decay_delay] and the
    bridge enabled; and each wait of the main loop is entered with both
    output ports 0 (bridge asleep, LED off), Timer_A's interrupt
    disabled and all pins but Tank_Full configured as outputs. *)
Theorem main_waits (m0 : machine) (samples : list Z) :
  Forall armed (phases (snd (main samples m0))) /\
  Forall quiet (sleeps (snd (main samples m0))) /\
  quiet (fst (main samples m0)).
Proof.
  split.
  - apply phases_armed. unfold main. rewrite seq_run. cbn [snd].
    apply Forall_app. split.
    + run. repeat constructor.
    + apply (after_init_keeps (fun _ => True) wait_armed);
        [intros; exact I
        | intros dir m _; split; [apply Solenoid_pulse_armed | exact I]
        | intros; exact I
        | exact I].
  - destruct (main_run samples m0) as (Hf & Hs & _). rewrite Hf, Hs.
    apply (loop_invariant quiet quiet quiet_step).
    apply first_pulse_quiet.
Qed.

(** ** The tick count along a run *)

Ltac Zify.zify_post_hook ::= Z.to_euclidean_division_equations.

Ltac thresholds :=
  change MaxOnTicks with 64 in *; change CooldownTicks with 32 in *;
  change CheckIntervalTicks with 2 in *; change MinOnTicks with 1 in *;
  change (u16 (Z.shiftl check_interval 5)) with 64 in *;
  change (u16 (Z.shiftl check_interval 4)) with 32 in *;
  change check_interval with 2 in *;
  unfold Idle, Filling, CooldownHysteresis, FaultWaitingFull in *;
  unfold u16 in *; change (2 ^ 16) with 65536 in *.

(** Split on the tests of an evaluation, keeping what each branch knows
    of the tick count. *)
Ltac branches m :=
  rewrite ?Z.gtb_ltb, ?Z.geb_leb;
  repeat match goal with
         | |- context [?a <? ?b] => destruct (Z.ltb_spec a b)
         | |- context [?a <=? ?b] => destruct (Z.leb_spec a b)
         | |- context [if ?c then _ else _] => destruct c eqn:?
         end;
  after_pulse.

Lemma bound_step (p2in : Z) (m : machine) :
  wake_bound m ->
  sleep_bound (fst (evaluate p2in m)) /\ wake_bound (fst (loop_body p2in m)).
Proof.
  intros (H0 & H). rewrite (proj1 (loop_body_run p2in m)).
  unfold wake_bound, sleep_bound. cbn [clk_count state set_clk_count].
  destruct H as [[Hs Hc]|[[Hs Hc]|[[Hs Hc]|[Hs Hc]]]];
    [rewrite (evaluate_Idle p2in m Hs)
    |rewrite (evaluate_Filling p2in m Hs)
    |rewrite (evaluate_Cooldown p2in m Hs)
    |rewrite (evaluate_Fault p2in m Hs)];
    thresholds; branches m; lia.
Qed.

(** X4: in every run of [main] the tick count is bounded by the state
    each time the main loop goes to sleep: at most CheckIntervalTicks in
    Idle, below MaxOnTicks in Filling, below CooldownTicks in
    CooldownHysteresis, and below 2^16 in FaultWaitingFull; the state is
    always one of the four.  In particular the valve is never left open
    for MaxOnTicks ticks or more, whatever the input port reads. *)
Theorem main_tick_bounds (m0 : machine) (samples : list Z) :
  Forall sleep_bound (sleeps (snd (main samples (startup m0)))) /\
  wake_bound (fst (main samples (startup m0))).
Proof.
  destruct (main_run samples (startup m0)) as (Hf & Hs & _).
  rewrite Hf, Hs.
  apply (loop_invariant wake_bound sleep_bound bound_step).
  unfold wake_bound.
  rewrite (proj1 (Solenoid_pulse_globals _ _)),
    (proj2 (Solenoid_pulse_globals _ _)).
  run. unfold startup. cbn [clk_count state set_clk_count set_state].
  thresholds. lia.
Qed.

(** ** Pulses and the Filling state *)

Lemma evaluate_edges (p2in : Z) (m : machine) :
  (state m = 0 /\ state (fst (evaluate p2in m)) = 1 /\
   pulses (snd (evaluate p2in m)) = [on]) \/
  (state m = 1 /\
   (state (fst (evaluate p2in m)) = 2 \/ state (fst (evaluate p2in m)) = 3) /\
   pulses (snd (evaluate p2in m)) = [off]) \/
  (pulses (snd (evaluate p2in m)) = [] /\
   (state (fst (evaluate p2in m)) = state m \/
    (state (fst (evaluate p2in m)) = 0 /\ (state m = 2 \/ state m = 3)))).
Proof.
  destruct (Z.eq_dec (state m) 0) as [H0|H0];
    [rewrite (evaluate_Idle p2in m H0)|
  destruct (Z.eq_dec (state m) 1) as [H1|H1];
    [rewrite (evaluate_Filling p2in m H1)|
  destruct (Z.eq_dec (state m) 2) as [H2|H2];
    [rewrite (evaluate_Cooldown p2in m H2)|
  destruct (Z.eq_dec (state m) 3) as [H3|H3];
    [rewrite (evaluate_Fault p2in m H3)|
     rewrite (evaluate_no_case p2in m H0 H1 H2 H3)]]]];
  repeat match goal with
         | |- context [if ?b then _ else _] => destruct b
         end;
  after_pulse;
  first [ left; repeat split; (reflexivity || assumption)
        | right; left; split; [assumption|];
          split; [(left; reflexivity) || (right; reflexivity) | reflexivity]
        | right; right; split; [reflexivity|];
          first [ left; reflexivity
                | right; split; [reflexivity|];
                  (left; assumption) || (right; assumption) ] ].
Qed.

(** X5: an evaluation of the controller pulses the valve open exactly
    when it enters Filling, pulses it closed exactly when it leaves
    Filling, and issues no other pulse. *)
Theorem evaluate_pulse_edges (p2in : Z) (m : machine) :
  (pulses (snd (evaluate p2in m)) = [on] <->
   state m <> Filling /\ state (fst (evaluate p2in m)) = Filling) /\
  (pulses (snd (evaluate p2in m)) = [off] <->
   state m = Filling /\ state (fst (evaluate p2in m)) <> Filling) /\
  (pulses (snd (evaluate p2in m)) = [] \/
   pulses (snd (evaluate p2in m)) = [on] \/
   pulses (snd (evaluate p2in m)) = [off]).
Proof.
  unfold Filling.
  destruct (evaluate_edges p2in m)
    as [(A & B & C)|[(A & B & C)|(C & B)]]; rewrite C;
    (split; [split|split; [split|]]);
    try (intros [D E]); try (intros D);
    try discriminate; try (split; lia); try lia; try reflexivity;
    auto.
Qed.

Lemma loop_body_state (p2in : Z) (m : machine) :
  state (fst (loop_body p2in m)) = state (fst (evaluate p2in m)).
Proof. rewrite (proj1 (loop_body_run p2in m)). reflexivity. Qed.

Lemma loop_alternates (samples : list Z) :
  forall m,
  exists n,
    pulses (snd (loop samples m))
    = alternate (if state m =? 1 then off else on) n /\
    (state (fst (loop samples m)) =? 1) = xorb (state m =? 1) (Nat.odd n).
Proof.
  induction samples as [|p2in rest IH]; intros m.
  - exists O. cbn. split; [reflexivity|]. now rewrite xorb_false_r.
  - cbn [loop]. rewrite seq_run. cbn [fst snd]. rewrite pulses_app.
    rewrite (proj2 (loop_body_run p2in m)).
    destruct (IH (fst (loop_body p2in m))) as (n & Hp & Hx).
    rewrite loop_body_state in Hp, Hx. rewrite Hp, Hx.
    destruct (evaluate_edges p2in m)
      as [(A & B & C)|[(A & [B|B] & C)|(C & [B|(B & [A|A])])]];
      rewrite C; rewrite ?A, ?B; cbn [Z.eqb Pos.eqb app xorb].
    + exists (S n). split; [reflexivity|].
      rewrite Nat.odd_succ, <- Nat.negb_odd. reflexivity.
    + exists (S n). split; [reflexivity|].
      rewrite Nat.odd_succ, <- Nat.negb_odd.
      now destruct (Nat.odd n).
    + exists (S n). split; [reflexivity|].
      rewrite Nat.odd_succ, <- Nat.negb_odd.
      now destruct (Nat.odd n).
    + exists n. split; reflexivity.
    + exists n. split; reflexivity.
    + exists n. split; reflexivity.
Qed.

Lemma last_alternate (n : nat) :
  last (alternate off (S n)) off = (if Nat.odd n then on else off) /\
  last (alternate on (S n)) off = (if Nat.odd n then off else on).
Proof.
  induction n as [|n [IHoff IHon]]; [split; reflexivity|].
  rewrite Nat.odd_succ, <- Nat.negb_odd.
  split.
  - change (alternate off (S (S n))) with (off :: alternate on (S n)).
    change (last (off :: alternate on (S n)) off)
      with (last (alternate on (S n)) off).
    rewrite IHon. now destruct (Nat.odd n).
  - change (alternate on (S (S n))) with (on :: alternate off (S n)).
    change (last (on :: alternate off (S n)) off)
      with (last (alternate off (S n)) off).
    rewrite IHoff. now destruct (Nat.odd n).
Qed.

(** X6: in every run of [main] the pulses alternate, starting with the
    closing pulse that [main] issues before its loop: closed, open,
    closed, and so on.  The last pulse issued was an opening one exactly
    when the controller is in Filling, so the valve is open in Filling
    and closed in every other state. *)
Theorem main_pulses_alternate (m0 : machine) (samples : list Z) :
  exists n,
    pulses (snd (main samples (startup m0))) = alternate off (S n) /\
    (state (fst (main samples (startup m0))) = Filling <->
     Nat.odd n = true) /\
    (last (pulses (snd (main samples (startup m0)))) off = on <->
     state (fst (main samples (startup m0))) = Filling).
Proof.
  destruct (main_run samples (startup m0)) as (Hf & _ & Hp).
  rewrite Hf, Hp.
  set (m2 := fst (Solenoid_pulse off (fst (port_init (startup m0))))).
  assert (Hs : state m2 = 0).
  { unfold m2. rewrite (proj2 (Solenoid_pulse_globals _ _)). reflexivity. }
  destruct (loop_alternates samples m2) as (n & Ha & Hx).
  rewrite Hs in Ha, Hx. cbn [Z.eqb xorb] in Ha, Hx.
  exists n. rewrite Ha.
  assert (Hiff : state (fst (loop samples m2)) = Filling <-> Nat.odd n = true).
  { unfold Filling. rewrite <- Hx. symmetry. apply Z.eqb_eq. }
  split; [reflexivity|]. split; [exact Hiff|].
  rewrite Hiff.
  change (off :: alternate on n) with (alternate off (S n)).
  rewrite (proj1 (last_alternate n)).
  destruct (Nat.odd n); split; intros H; (reflexivity || discriminate H).
Qed.

(** ** Evaluations that cannot pulse *)

Lemma dwell_step (p2in : Z) (m : machine) :
  0 <= clk_count m -> 1 <= dwell m ->
  pulses (snd (evaluate p2in m)) = [] /\
  0 <= clk_count (fst (loop_body p2in m)) /\
  dwell m - 1 <= dwell (fst (loop_body p2in m)).
Proof.
  intros H0 Hd. rewrite (proj1 (loop_body_run p2in m)).
  unfold dwell in *. cbn [clk_count state set_clk_count].
  thresholds.
  destruct (Z.eqb_spec (state m) 0) as [Hs|Hs0];
    [rewrite (evaluate_Idle p2in m Hs)
    |destruct (Z.eqb_spec (state m) 1) as [Hs|Hs1];
     [rewrite (evaluate_Filling p2in m Hs)
     |destruct (Z.eqb_spec (state m) 2) as [Hs|Hs2];
      [rewrite (evaluate_Cooldown p2in m Hs)|lia]]];
    thresholds; rewrite ?Z.gtb_ltb, ?Z.geb_leb;
    repeat match goal with
           | |- context [?a <? ?b] => destruct (Z.ltb_spec a b)
           | |- context [?a <=? ?b] => destruct (Z.leb_spec a b)
           end;
    try lia; after_pulse;
    repeat match goal with
           | |- context [?a =? ?b] => destruct (Z.eqb_spec a b)
           end;
    try lia; (split; [reflexivity|lia]).
Qed.

(** X7: the hysteresis of the controller.  Whatever the input port
    reads, no pulse is issued during the next [dwell m] evaluations: in
    Idle until the tick count exceeds CheckIntervalTicks, in Filling
    until it exceeds MinOnTicks, and from CooldownHysteresis until
    CooldownTicks is reached and the Idle wait that follows is over, 34
    evaluations when counted from the one after the valve was closed. *)
Theorem dwell_quiet (samples : list Z) :
  forall m,
    0 <= clk_count m ->
    Z.of_nat (length samples) <= dwell m ->
    pulses (snd (loop samples m)) = [].
Proof.
  induction samples as [|p2in rest IH]; intros m H0 Hd; [reflexivity|].
  cbn [length] in Hd. cbn [loop]. rewrite seq_run. cbn [fst snd].
  rewrite pulses_app, (proj2 (loop_body_run p2in m)).
  destruct (dwell_step p2in m H0) as (Hp & H0' & Hd'); [lia|].
  rewrite Hp, (IH _ H0'); [reflexivity | lia].
Qed.

Lemma dwell_quiet_witness :
  dwell (set_clk_count 1 (set_state CooldownHysteresis zero_machine)) = 34 /\
  pulses (snd (loop (repeat 0 34)
                 (set_clk_count 1 (set_state CooldownHysteresis zero_machine))))
  = [].
Proof.
  split; [reflexivity|].
  apply (dwell_quiet (repeat 0 34)
           (set_clk_count 1 (set_state CooldownHysteresis zero_machine))).
  - vm_compute. discriminate.
  - vm_compute. discriminate.
Defined.

(** ** The fault state *)

(** X8: FaultWaitingFull is latched.  While the input port reads 0 the
    controller stays in it for any number of evaluations, issues no
    pulse and changes no hardware register; the tick count keeps
    counting modulo 2^16 and is never compared with anything. *)
Theorem Fault_latched (n : nat) :
  forall m,
    state m = FaultWaitingFull -> 0 <= clk_count m < 2 ^ 16 ->
    state (fst (loop (repeat 0 n) m)) = FaultWaitingFull /\
    pulses (snd (loop (repeat 0 n) m)) = [] /\
    clk_count (fst (loop (repeat 0 n) m))
    = (clk_count m + Z.of_nat n) mod 2 ^ 16 /\
    same_hardware m (fst (loop (repeat 0 n) m)).
Proof.
  induction n as [|n IH]; intros m Hs Hc.
  - cbn [repeat loop skip fst snd pulses]. rewrite Z.add_0_r.
    rewrite Z.mod_small by assumption. repeat split; assumption.
  - cbn [repeat loop]. rewrite seq_run. cbn [fst snd].
    rewrite pulses_app, (proj2 (loop_body_run 0 m)).
    assert (He : evaluate 0 m = (m, [])) by (rewrite (evaluate_Fault 0 m Hs); reflexivity).
    assert (Hm : fst (loop_body 0 m) = set_clk_count (u16 (clk_count m + 1)) m)
      by (rewrite (proj1 (loop_body_run 0 m)), He; reflexivity).
    rewrite He, Hm. cbn [snd pulses app].
    destruct (IH (set_clk_count (u16 (clk_count m + 1)) m)) as (A & B & C & D).
    + exact Hs.
    + cbn [clk_count set_clk_count]. unfold u16. apply Z.mod_pos_bound. lia.
    + split; [exact A|]. split; [exact B|]. split; [|exact D].
      rewrite C. cbn [clk_count set_clk_count]. unfold u16.
      rewrite Zplus_mod_idemp_l. f_equal. lia.
Qed.

Lemma Fault_latched_witness :
  state (set_clk_count 65535 (set_state 3 zero_machine)) = FaultWaitingFull /\
  state (fst (loop (repeat 0 2)
                (set_clk_count 65535 (set_state 3 zero_machine))))
  = FaultWaitingFull /\
  clk_count (fst (loop (repeat 0 2)
                    (set_clk_count 65535 (set_state 3 zero_machine))))
  = (65535 + 2) mod 2 ^ 16.
Proof.
  split; [reflexivity|].
  destruct (Fault_latched 2 (set_clk_count 65535 (set_state 3 zero_machine)))
    as (A & _ & C & _).
  - reflexivity.
  - vm_compute. split; [discriminate | reflexivity].
  - split; [exact A | exact C].
Defined.

(** ** The remaining branches of Filling *)

(** X9: an evaluation in Filling closes the valve and enters
    FaultWaitingFull, leaving the tick count as it is, exactly when the
    count has reached MaxOnTicks and the whole input port reads 0. *)
Theorem Filling_fault_evaluation (p2in : Z) (m : machine) :
  state m = Filling ->
  (state (fst (evaluate p2in m)) = FaultWaitingFull /\
   clk_count (fst (evaluate p2in m)) = clk_count m /\
   pulses (snd (evaluate p2in m)) = [off]) <->
  (clk_count m >= MaxOnTicks /\ p2in = 0).
Proof.
  intros Hs. rewrite (evaluate_Filling p2in m Hs). unfold truthy.
  thresholds. rewrite Z.gtb_ltb, Z.geb_leb.
  destruct (Z.ltb_spec 1 (clk_count m)); destruct (Z.eqb_spec p2in 0);
    cbn [negb]; try destruct (Z.leb_spec 64 (clk_count m)); after_pulse;
    split; try (intros (A & B & C)); try (intros [A B]);
    repeat split; try reflexivity; try lia; try congruence.
Qed.

Lemma Filling_fault_evaluation_witness :
  state (set_clk_count 64 (set_state 1 zero_machine)) = Filling /\
  state (fst (evaluate 0 (set_clk_count 64 (set_state 1 zero_machine))))
  = FaultWaitingFull.
Proof.
  split; [reflexivity|].
  apply (Filling_fault_evaluation 0 (set_clk_count 64 (set_state 1 zero_machine))).
  - reflexivity.
  - split; [vm_compute; discriminate | reflexivity].
Defined.

(** ** Instances *)

Lemma Filling_evaluation_raw_port_witness :
  state (set_clk_count 2 (set_state 1 zero_machine)) = Filling /\
  state (fst (evaluate 0x10 (set_clk_count 2 (set_state 1 zero_machine))))
  = CooldownHysteresis /\
  clk_count (fst (evaluate 0x10 (set_clk_count 2 (set_state 1 zero_machine))))
  = 0 /\
  pulses (snd (evaluate 0x10 (set_clk_count 2 (set_state 1 zero_machine))))
  = [off].
Proof.
  split; [reflexivity|].
  apply (Filling_evaluation_raw_port 0x10
           (set_clk_count 2 (set_state 1 zero_machine))).
  - reflexivity.
  - split; [vm_compute; reflexivity | discriminate].
Defined.

Lemma Fault_evaluation_raw_port_witness :
  state (set_clk_count 70 (set_state 3 zero_machine)) = FaultWaitingFull /\
  state (fst (evaluate 0x10 (set_clk_count 70 (set_state 3 zero_machine))))
  = Idle /\
  clk_count (fst (evaluate 0x10 (set_clk_count 70 (set_state 3 zero_machine))))
  = 0.
Proof.
  split; [reflexivity|].
  apply (Fault_evaluation_raw_port 0x10
           (set_clk_count 70 (set_state 3 zero_machine))).
  - reflexivity.
  - discriminate.
Defined.

Lemma Filling_times_out_witness :
  state (set_clk_count 1 (set_state 1 zero_machine)) = Filling /\
  clk_count (set_clk_count 1 (set_state 1 zero_machine)) = 1 /\
  state (fst (evaluate 0
           (fst (loop (repeat 0 63)
                   (set_clk_count 1 (set_state 1 zero_machine))))))
  = FaultWaitingFull.
Proof.
  assert (Hs : state (set_clk_count 1 (set_state 1 zero_machine)) = Filling)
    by reflexivity.
  assert (Hc : clk_count (set_clk_count 1 (set_state 1 zero_machine)) = 1)
    by reflexivity.
  split; [exact Hs|]. split; [exact Hc|].
  exact (proj1 (proj2 (proj2
           (Filling_times_out _ Hs Hc)))).
Defined.
